(** * Entain racing / sports services and API gateway

    A shallow embedding of

      - [racing/db/races.go]      the races repository: [Init], [List], [Get],
                                  the query builder [applyFilter] and the row
                                  mapper [scanRaces];
      - [sports/service/sports.go] the sports service's [ListEvents];
      - the API gateway's [run]   (registration of both backends, then serve).

    Go values are modelled as follows.  An [int64] is a [Z]; a Go [string] is
    a [string] (a sequence of bytes); a slice is a [list], the nil slice and
    the empty slice both being [[]] (the code only ever takes [len] of them,
    ranges over them or appends to them); a pointer that may be nil is an
    [option]; a Go [error] result is an [option error], [None] being nil. *)

From Stdlib Require Import ZArith List String Ascii Bool Lia.
From Stdlib Require Import Decimal DecimalString DecimalZ.
Import ListNotations.

Open Scope string_scope.
Open Scope Z_scope.

(** ** The parts of Go's standard library the code calls *)

Module strings.

(** [strings.Repeat(s, count)]; the only call site passes
    [len(filter.MeetingIds)-1] under the guard [len(filter.MeetingIds) > 0],
    so the count is never negative there. *)
Fixpoint Repeat (s : string) (count : nat) : string :=
  match count with
  | O => ""
  | S n => s ++ Repeat s n
  end.

(** [strings.Join(elems, sep)]. *)
Fixpoint Join (elems : list string) (sep : string) : string :=
  match elems with
  | [] => ""
  | [e] => e
  | e :: rest => e ++ sep ++ Join rest sep
  end.

End strings.

Module strconv.

(** [strconv.FormatInt(i, 10)]: the decimal digits of [i], most significant
    first, with a leading minus sign when [i] is negative. *)
Definition FormatInt (i : Z) : string :=
  NilZero.string_of_int (Z.to_int i).

(** The inverse reading of a decimal literal, used to state that
    [FormatInt] writes the number it is given. *)
Definition ParseInt (s : string) : option Z :=
  option_map Z.of_int (NilZero.int_of_string s).

End strconv.

(** Go's [error] values, as far as this code tells them apart: the repository
    compares against [sql.ErrNoRows] and passes every other error through. *)
Inductive error : Type :=
| ErrNoRows
| ErrOther (msg : string).

Definition is_ErrNoRows (e : error) : bool :=
  match e with
  | ErrNoRows => true
  | ErrOther _ => false
  end.

Module time.

(** A [time.Time] instant, as nanoseconds since the Unix epoch. *)
Definition Time : Type := Z.

(** [t.Before(u)]. *)
Definition Before (t u : Time) : bool := t <? u.

(** [t.Unix()] and [t.Nanosecond()]. *)
Definition Unix (t : Time) : Z := t / 1000000000.
Definition Nanosecond (t : Time) : Z := t mod 1000000000.

End time.

Module ptypes.

(** [timestamppb.Timestamp]. *)
Record Timestamp : Type := mkTimestamp {
  Seconds : Z;
  Nanos : Z
}.

(** 0001-01-01T00:00:00Z and 10000-01-01T00:00:00Z in Unix seconds. *)
Definition minValidSeconds : Z := -62135596800.
Definition maxValidSeconds : Z := 253402300800.

(** [ptypes.TimestampProto(t)]: the seconds and nanoseconds of [t], or an
    error (and no timestamp) when the seconds fall outside the years 1 to
    9999 or the nanoseconds outside a second. *)
Definition TimestampProto (t : time.Time) : Timestamp + error :=
  let ts := {| Seconds := time.Unix t; Nanos := time.Nanosecond t |} in
  if Seconds ts <? minValidSeconds then
    inr (ErrOther "timestamp: before 0001-01-01")
  else if maxValidSeconds <=? Seconds ts then
    inr (ErrOther "timestamp: after 10000-01-01")
  else if (Nanos ts <? 0) || (1000000000 <=? Nanos ts) then
    inr (ErrOther "timestamp: nanos not in range [0, 1e9)")
  else inl ts.

(** The instant a wire timestamp denotes. *)
Definition instant (ts : Timestamp) : time.Time :=
  Seconds ts * 1000000000 + Nanos ts.

End ptypes.

(** ** [database/sql] *)

Module sql.

(** An argument bound to a positional placeholder ([interface{}] holding
    an [int64], the only kind the repository passes). *)
Inductive arg : Type :=
| Int64 (v : Z).

(** What [rows.Scan] does on one row of the races table: it fills the six
    destinations, or fails. *)
Inductive row : Type :=
| Scanned (id meeting_id : Z) (name : string) (number : Z)
          (visible : bool) (advertised_start_time : time.Time)
| ScanError (e : error).

(** [*sql.Rows]: the rows [rows.Next] steps through, in result order. *)
Definition Rows : Type := list row.

(** The store connector.  [DB] is the state of the database behind the
    [*sql.DB] handle.  [Query] is [db.Query(query, args...)].  The two other
    members belong to files of the repository outside the model: [seed]
    is [racesRepo.seed], which writes the example races and may fail, and
    [racesListQuery] is [getRaceQueries()[racesList]], the select-all
    template. *)
Class Store (DB : Type) : Type := {
  Query : DB -> string -> list arg -> Rows + error;
  seed : DB -> DB * option error;
  racesListQuery : string
}.

End sql.

(** [sync.Once]: [done] records that [Do] has run its function. *)
Module sync.

Record Once : Type := mkOnce { done : bool }.

(** [o.Do(f)] over the state [f] acts on: [f] runs if no [Do] has run on [o]
    before, and then [o] is marked. *)
Definition Do {S : Type} (o : Once) (f : S -> S) (s : S) : Once * S :=
  if done o then (o, s) else ({| done := true |}, f s).

End sync.

(** ** [racing/db/races.go] *)

Module db.

Import sql.

(** [racing.ListRacesRequestFilter]. *)
Record ListRacesRequestFilter : Type := mkFilter {
  MeetingIds : list Z;
  VisibleOnly : bool;
  OrderBy : string
}.

(** [racing.GetRaceRequest]. *)
Record GetRaceRequest : Type := mkGetRaceRequest { Id : Z }.

(** [racing.Race]. *)
Record Race : Type := mkRace {
  RaceId : Z;
  MeetingId : Z;
  Name : string;
  Number : Z;
  Visible : bool;
  AdvertisedStartTime : ptypes.Timestamp;
  Status : string
}.

(** [applyFilter(query, filter)]. *)
Definition applyFilter (query : string) (filter : option ListRacesRequestFilter)
  : string * list arg :=
  match filter with
  | None => (query, [])
  | Some filter =>
      let clauses : list string := [] in
      let args : list arg := [] in
      let '(clauses, args) :=
        if (0 <? Z.of_nat (List.length (MeetingIds filter))) then
          ((clauses ++
              [("meeting_id IN ("
                ++ strings.Repeat "?," (List.length (MeetingIds filter) - 1)
                ++ "?)")%string])%list,
           fold_left (fun args meetingID => (args ++ [Int64 meetingID])%list)
                     (MeetingIds filter) args)
        else (clauses, args) in
      let clauses :=
        if VisibleOnly filter then (clauses ++ ["visible=true"])%list
        else clauses in
      let query :=
        if negb (Nat.eqb (List.length clauses) 0)
        then query ++ " WHERE " ++ strings.Join clauses " AND "
        else query in
      let query := query ++ " ORDER BY advertised_start_time" in
      let query :=
        if (0 <? Z.of_nat (String.length (OrderBy filter)))
           && (String.eqb (OrderBy filter) "ASC"
               || String.eqb (OrderBy filter) "DESC")
        then query ++ " " ++ OrderBy filter
        else query in
      (query, args)
  end.

(** The body of the [for rows.Next()] loop of [scanRaces], over the rows
    still to come.  [clock k] is what the [k]-th call of [time.Now()] made
    by this run of the loop returns: the loop reads the clock once for each
    row it maps, after the scan and the conversion have succeeded. *)
Fixpoint scanLoop (clock : nat -> time.Time) (k : nat) (rows : Rows)
                  (races : list Race) : list Race * option error :=
  match rows with
  | [] => (races, None)
  | Scanned id meeting_id name number visible advertisedStart :: rows' =>
      match ptypes.TimestampProto advertisedStart with
      | inr err => ([], Some err)
      | inl ts =>
          let status :=
            if time.Before advertisedStart (clock k) then "CLOSED" else "OPEN" in
          let race := {| RaceId := id; MeetingId := meeting_id; Name := name;
                         Number := number; Visible := visible;
                         AdvertisedStartTime := ts; Status := status |} in
          scanLoop clock (S k) rows' (races ++ [race])%list
      end
  | ScanError err :: _ =>
      if is_ErrNoRows err then ([], None) else ([], Some err)
  end.

(** [scanRaces(rows)]. *)
Definition scanRaces (clock : nat -> time.Time) (rows : Rows)
  : list Race * option error :=
  scanLoop clock 0 rows [].

(** [racesRepo]. *)
Record racesRepo (DB : Type) : Type := mkRepo {
  repo_db : DB;
  repo_init : sync.Once
}.
Arguments mkRepo {DB} _ _.
Arguments repo_db {DB} _.
Arguments repo_init {DB} _.

Section Repo.

Context {DB : Type} {S : Store DB}.

(** [NewRacesRepo(db)]. *)
Definition NewRacesRepo (db : DB) : racesRepo DB :=
  {| repo_db := db; repo_init := {| sync.done := false |} |}.

(** [Init()]: the function handed to [Do] assigns the local [err], which
    starts out nil and is what [Init] returns. *)
Definition Init (r : racesRepo DB) : racesRepo DB * option error :=
  let err : option error := None in
  let '(once, (db, err)) :=
    sync.Do (repo_init r) (fun '(db, _) => seed db) (repo_db r, err) in
  ({| repo_db := db; repo_init := once |}, err).

(** [List(filter)]. *)
Definition List (r : racesRepo DB) (clock : nat -> time.Time)
                (filter : option ListRacesRequestFilter)
  : list Race * option error :=
  let query := racesListQuery in
  let '(query, args) := applyFilter query filter in
  match Query (repo_db r) query args with
  | inr err => ([], Some err)
  | inl rows => scanRaces clock rows
  end.

(** [Get(filter)]. *)
Definition Get (r : racesRepo DB) (clock : nat -> time.Time)
               (filter : GetRaceRequest) : option Race * option error :=
  let args : list arg := [] in
  let query := racesListQuery in
  let query := query ++ " WHERE id=" ++ strconv.FormatInt (Id filter) in
  match Query (repo_db r) query args with
  | inr err => (None, Some err)
  | inl rows =>
      let '(races, err) := scanRaces clock rows in
      match races with
      | [] => (None, err)
      | race :: _ => (Some race, err)
      end
  end.

End Repo.

End db.

(** ** [sports/service/sports.go] *)

Module service.

Section Sports.

(** [sports.ListEventsRequestFilter] and [sports.Event] are generated
    messages the service never looks into. *)
Variables Filter Event : Type.

(** [db.EventsRepo], the interface the service holds: [repoList] is its
    [List] method. *)
Class EventsRepo (R : Type) : Type := {
  repoList : R -> option Filter -> list Event * option error
}.

(** [sports.ListEventsRequest] and [sports.ListEventsResponse]. *)
Record ListEventsRequest : Type := mkRequest {
  RequestFilter : option Filter
}.

Record ListEventsResponse : Type := mkResponse {
  Events : list Event
}.

(** [sportService]. *)
Record sportService (R : Type) : Type := mkService { eventsRepo : R }.

(** [NewSportsService(eventsRepo)]. *)
Definition NewSportsService {R : Type} (repo : R) : sportService R :=
  {| eventsRepo := repo |}.

(** [ListEvents(ctx, in)]; the context is not used. *)
Definition ListEvents {R : Type} {repo : EventsRepo R}
           (s : sportService R) (in_ : ListEventsRequest)
  : option ListEventsResponse * option error :=
  let '(events, err) := repoList (eventsRepo R s) (RequestFilter in_) in
  match err with
  | Some err => (None, Some err)
  | None => (Some {| Events := events |}, None)
  end.

End Sports.

Arguments repoList {Filter Event R _} _ _.
Arguments RequestFilter {Filter} _.
Arguments mkRequest {Filter} _.
Arguments Events {Event} _.
Arguments mkResponse {Event} _.
Arguments eventsRepo {R} _.
Arguments mkService {R} _.
Arguments NewSportsService {R} _.
Arguments ListEvents {Filter Event R _} _ _.

End service.

(** ** The API gateway's [main.go] *)

Module gateway.

(** The three flags. *)
Record flags : Type := mkFlags {
  apiEndpoint : string;
  racingEndpoint : string;
  sportsEndpoint : string
}.

(** The defaults the flags are declared with. *)
Definition defaultFlags : flags :=
  {| apiEndpoint := "localhost:8000";
     racingEndpoint := "localhost:9000";
     sportsEndpoint := "localhost:10000" |}.

(** What [run] calls outside itself, over the state [Mux] of a
    [*runtime.ServeMux]: the two generated registration functions, which
    add routes to the multiplexer or fail, and [http.ListenAndServe], which
    serves until it fails and so always returns an error. *)
Class Runtime (Mux : Type) : Type := {
  NewServeMux : Mux;
  RegisterRacingHandlerFromEndpoint : Mux -> string -> Mux * option error;
  RegisterSportsHandlerFromEndpoint : Mux -> string -> Mux * option error;
  ListenAndServe : string -> Mux -> error
}.

(** The calls [run] makes, in the order it makes them. *)
Inductive call (Mux : Type) : Type :=
| RegisterRacing (endpoint : string)
| RegisterSports (endpoint : string)
| LogListening (addr : string)
| Serve (addr : string) (mux : Mux).
Arguments RegisterRacing {Mux} _.
Arguments RegisterSports {Mux} _.
Arguments LogListening {Mux} _.
Arguments Serve {Mux} _ _.

(** [run()]: the error it returns, with the calls it made. *)
Definition run {Mux : Type} {R : Runtime Mux} (fl : flags)
  : list (call Mux) * option error :=
  let mux := NewServeMux in
  let '(mux, racingErr) :=
    RegisterRacingHandlerFromEndpoint mux (racingEndpoint fl) in
  let trace := [RegisterRacing (racingEndpoint fl)] in
  match racingErr with
  | Some racingErr => (trace, Some racingErr)
  | None =>
      let '(mux, sportsErr) :=
        RegisterSportsHandlerFromEndpoint mux (sportsEndpoint fl) in
      let trace := (trace ++ [RegisterSports (sportsEndpoint fl)])%list in
      match sportsErr with
      | Some sportsErr => (trace, Some sportsErr)
      | None =>
          let trace := (trace ++ [LogListening (apiEndpoint fl)])%list in
          let err := ListenAndServe (apiEndpoint fl) mux in
          ((trace ++ [Serve (apiEndpoint fl) mux])%list, Some err)
      end
  end.

(** Whether a call starts the HTTP server. *)
Definition isServe {Mux : Type} (c : call Mux) : bool :=
  match c with
  | Serve _ _ => true
  | _ => false
  end.

End gateway.

(** ** The gateway's [main] *)

Module api.

(** [err.Error()], the text the verb [%s] prints for an error. *)
Definition Error (e : error) : string :=
  match e with
  | ErrNoRows => "sql: no rows in result set"
  | ErrOther msg => msg
  end.

(** The line feed that ends the log format. *)
Definition newline : string := String (ascii_of_nat 10) EmptyString.

(** [main()], from the flags [flag.Parse] has read: the calls of [run], and
    the lines [main] itself writes to the log. *)
Definition main {Mux : Type} {R : gateway.Runtime Mux} (fl : gateway.flags)
  : list (gateway.call Mux) * list string :=
  let '(trace, err) := gateway.run fl in
  match err with
  | Some err =>
      (trace, ["failed running api server: " ++ Error err ++ newline])
  | None => (trace, [])
  end.

End api.

(** * The vocabulary of the properties, and sample stores *)

(** [EndsWith s suffix]: [suffix] is the end of [s]. *)
Definition EndsWith (s suffix : string) : Prop :=
  exists front, s = front ++ suffix.

(** The same as a test, which is what Go's [strings.HasSuffix] computes. *)
Fixpoint HasSuffix (s suffix : string) : bool :=
  if String.eqb s suffix then true
  else match s with
       | EmptyString => false
       | String _ s' => HasSuffix s' suffix
       end.

(** How many times the byte [c] occurs in [s]. *)
Fixpoint occurrences (c : ascii) (s : string) : nat :=
  match s with
  | EmptyString => 0
  | String c' s' => ((if Ascii.eqb c c' then 1 else 0) + occurrences c s')%nat
  end.

(** The ordering clause on the advertised start time. *)
Definition orderByClause : string := " ORDER BY advertised_start_time".

(** The direction an order directive selects: itself when it is exactly
    ["ASC"] or ["DESC"], none (the engine's default, ascending) otherwise. *)
Definition direction (orderBy : string) : string :=
  if String.eqb orderBy "ASC" then " ASC"
  else if String.eqb orderBy "DESC" then " DESC"
  else "".

(** [n] positional placeholders, separated by commas. *)
Definition placeholders (n : nat) : string :=
  strings.Join (List.repeat "?" n) ",".

(** The membership clause on the grouping column for [n] values. *)
Definition membershipClause (n : nat) : string :=
  "meeting_id IN (" ++ placeholders n ++ ")".

(** The visibility clause. *)
Definition visibilityClause : string := "visible=true".

(** A query is ordered when it ends with the ordering clause, followed by at
    most a direction. *)
Definition Ordered (query : string) : Prop :=
  EndsWith query orderByClause
  \/ EndsWith query (orderByClause ++ " ASC")
  \/ EndsWith query (orderByClause ++ " DESC").

Definition isOrdered (query : string) : bool :=
  HasSuffix query orderByClause
  || HasSuffix query (orderByClause ++ " ASC")
  || HasSuffix query (orderByClause ++ " DESC").

(** A select-all template for the races table, with the six columns in the
    order [scanRaces] reads them. *)
Definition selectRaces : string :=
  "SELECT id, meeting_id, name, number, visible, advertised_start_time FROM races".

(** Two races of one meeting, one starting a hundred seconds after the Unix
    epoch and one a hundred seconds later. *)
Definition earlyRace : sql.row :=
  sql.Scanned 1 7 "Early" 1 true 100000000000.
Definition lateRace : sql.row :=
  sql.Scanned 2 7 "Late" 2 true 200000000000.

(** A store of these two races, kept in the order of their start times.  It
    answers every query with both, latest first when the query ends with a
    descending ordering clause and in stored order otherwise; its seed does
    nothing. *)
Definition twoRaces : sql.Store unit :=
  {| sql.Query := fun _ query _ =>
       if HasSuffix query (orderByClause ++ " DESC")
       then inl [lateRace; earlyRace]
       else inl [earlyRace; lateRace];
     sql.seed := fun d => (d, None);
     sql.racesListQuery := selectRaces |}.

(** A clock that stands still. *)
Definition at_ (now : time.Time) : nat -> time.Time := fun _ => now.

(** The filter with no identifier, the flag unset and the directive
    ["DESC"]. *)
Definition descendingOnly : db.ListRacesRequestFilter :=
  {| db.MeetingIds := []; db.VisibleOnly := false; db.OrderBy := "DESC" |}.

(** The status the mapper derives from a start time and a reading of the
    clock. *)
Definition statusAt (start now : time.Time) : string :=
  if start <? now then "CLOSED" else "OPEN".

(** [maps now r race]: the race is the row [r], scanned without an error, with
    its start time as a wire timestamp and the status derived at [now]. *)
Definition maps (now : time.Time) (r : sql.row) (race : db.Race) : Prop :=
  match r with
  | sql.Scanned id meeting_id name number visible start =>
      race = {| db.RaceId := id; db.MeetingId := meeting_id; db.Name := name;
                db.Number := number; db.Visible := visible;
                db.AdvertisedStartTime :=
                  {| ptypes.Seconds := time.Unix start;
                     ptypes.Nanos := time.Nanosecond start |};
                db.Status := statusAt start now |}
  | sql.ScanError _ => False
  end.

(** [mapped clock k rows races]: the races are the rows, one for one and in
    their order, the first mapped at the [k]-th reading of the clock. *)
Inductive mapped (clock : nat -> time.Time)
  : nat -> sql.Rows -> list db.Race -> Prop :=
| mapped_nil (k : nat) : mapped clock k [] []
| mapped_cons (k : nat) (r : sql.row) (race : db.Race)
              (rows : sql.Rows) (races : list db.Race) :
    maps (clock k) r race ->
    mapped clock (S k) rows races ->
    mapped clock k (r :: rows) (race :: races).

(** The two races of [twoRaces], as mapped at a time between their start
    times. *)
Definition earlyRaceClosed : db.Race :=
  {| db.RaceId := 1; db.MeetingId := 7; db.Name := "Early"; db.Number := 1;
     db.Visible := true;
     db.AdvertisedStartTime := {| ptypes.Seconds := 100; ptypes.Nanos := 0 |};
     db.Status := "CLOSED" |}.

Definition lateRaceOpen : db.Race :=
  {| db.RaceId := 2; db.MeetingId := 7; db.Name := "Late"; db.Number := 2;
     db.Visible := true;
     db.AdvertisedStartTime := {| ptypes.Seconds := 200; ptypes.Nanos := 0 |};
     db.Status := "OPEN" |}.

(** A store with no race at all. *)
Definition noRaces : sql.Store unit :=
  {| sql.Query := fun _ _ _ => inl [];
     sql.seed := fun d => (d, None);
     sql.racesListQuery := selectRaces |}.

(** The query [Get] executes for a request. *)
Definition getQuery {DB : Type} {S : sql.Store DB} (req : db.GetRaceRequest)
  : string :=
  sql.racesListQuery ++ " WHERE id=" ++ strconv.FormatInt (db.Id req).

(** A store whose state is the number of times its seed has run: the seed
    counts the run and fails; a query finds no row, and fails once the seed
    has run twice. *)
Definition brokenSeed : sql.Store nat :=
  {| sql.Query := fun runs _ _ =>
       if (2 <=? Z.of_nat runs) then inr (ErrOther "database is locked")
       else inl [];
     sql.seed := fun runs => (S runs, Some (ErrOther "seed failed"));
     sql.racesListQuery := selectRaces |}.

(** [n] calls of [Init], one after the other: the repository they leave and
    what each returned, first call first. *)
Fixpoint InitTimes {DB : Type} {S : sql.Store DB} (n : nat) (r : db.racesRepo DB)
  : db.racesRepo DB * list (option error) :=
  match n with
  | O => (r, [])
  | S n' =>
      let '(r1, err) := db.Init r in
      let '(r2, errs) := InitTimes n' r1 in
      (r2, err :: errs)
  end.

(** A repository of events named by numbers: it fails on an absent filter and
    otherwise returns the numbers of the filter, as they are. *)
Definition echoRepo : service.EventsRepo (list nat) nat unit :=
  {| service.repoList := fun _ filter =>
       match filter with
       | None => ([], Some (ErrOther "no filter"))
       | Some ids => (ids, None)
       end |}.

(** A gateway runtime whose multiplexer is the list of the services
    registered on it.  The racing registration succeeds and the sports
    registration fails unless its endpoint is the default one. *)
Definition strictSports : gateway.Runtime (list string) :=
  {| gateway.NewServeMux := [];
     gateway.RegisterRacingHandlerFromEndpoint := fun mux _ =>
       (("racing" :: mux)%list, None);
     gateway.RegisterSportsHandlerFromEndpoint := fun mux endpoint =>
       if String.eqb endpoint "localhost:10000"
       then (("sports" :: mux)%list, None)
       else (mux, Some (ErrOther "sports: bad endpoint"));
     gateway.ListenAndServe := fun _ _ => ErrOther "http: Server closed" |}.

(** A filter with its order directive replaced. *)
Definition withOrderBy (f : db.ListRacesRequestFilter) (orderBy : string)
  : db.ListRacesRequestFilter :=
  {| db.MeetingIds := db.MeetingIds f; db.VisibleOnly := db.VisibleOnly f;
     db.OrderBy := orderBy |}.

(** A row the mapper stops at: its scan fails, or its start time has no wire
    timestamp. *)
Definition fails (r : sql.row) : bool :=
  match r with
  | sql.Scanned _ _ _ _ _ start =>
      match ptypes.TimestampProto start with
      | inl _ => false
      | inr _ => true
      end
  | sql.ScanError _ => true
  end.

(** A row that scans, with a start time in the years 1 to 9999. *)
Definition inYears (r : sql.row) : bool :=
  match r with
  | sql.Scanned _ _ _ _ _ start =>
      (ptypes.minValidSeconds * 1000000000 <=? start)
      && (start <? ptypes.maxValidSeconds * 1000000000)
  | sql.ScanError _ => false
  end.

(** A wire timestamp within the bounds [TimestampProto] checks. *)
Definition validTimestamp (ts : ptypes.Timestamp) : Prop :=
  ptypes.minValidSeconds <= ptypes.Seconds ts < ptypes.maxValidSeconds
  /\ 0 <= ptypes.Nanos ts < 1000000000.

(** The bytes of a decimal literal: the ten digits and the minus sign. *)
Definition isLiteralByte (c : ascii) : bool :=
  match c with
  | "0" | "1" | "2" | "3" | "4" | "5" | "6" | "7" | "8" | "9" | "-" => true
  | _ => false
  end%char.

(** Every byte of [s] passes the test [ok]. *)
Fixpoint allBytes (ok : ascii -> bool) (s : string) : bool :=
  match s with
  | EmptyString => true
  | String c s' => ok c && allBytes ok s'
  end.

(** What the loop keeps true of the races it has mapped. *)
Definition wellFormed (race : db.Race) : Prop :=
  validTimestamp (db.AdvertisedStartTime race)
  /\ (db.Status race = "OPEN" \/ db.Status race = "CLOSED").

(** A race set to start with the year 10000, a second after the last start
    time that has a wire timestamp. *)
Definition yearTenThousand : sql.row :=
  sql.Scanned 3 7 "Never" 3 true 253402300800000000000.

(** The late race of [twoRaces], as mapped after its start time. *)
Definition lateRaceClosed : db.Race :=
  {| db.RaceId := 2; db.MeetingId := 7; db.Name := "Late"; db.Number := 2;
     db.Visible := true;
     db.AdvertisedStartTime := {| ptypes.Seconds := 200; ptypes.Nanos := 0 |};
     db.Status := "CLOSED" |}.

(** * Properties *)

(** ** Strings *)

Lemma append_nil_r (s : string) : s ++ "" = s.
Proof. induction s as [|c s IH]; simpl; [reflexivity | now rewrite IH]. Qed.

Lemma append_assoc (s t u : string) : (s ++ t) ++ u = s ++ (t ++ u).
Proof. induction s as [|c s IH]; simpl; [reflexivity | now rewrite IH]. Qed.

Lemma HasSuffix_EndsWith (s suffix : string) :
  HasSuffix s suffix = true <-> EndsWith s suffix.
Proof.
  split.
  - induction s as [|c s IH]; cbn [HasSuffix].
    + destruct (String.eqb_spec "" suffix) as [<-|]; [|discriminate].
      intros _. now exists "".
    + destruct (String.eqb_spec (String c s) suffix) as [<-|_].
      * intros _. now exists "".
      * intros Hs. destruct (IH Hs) as [front ->]. now exists (String c front).
  - intros [front ->]. induction front as [|c front IH].
    + cbn [String.append]. destruct suffix; cbn [HasSuffix];
        now rewrite String.eqb_refl.
    + cbn [String.append HasSuffix]. rewrite IH.
      now destruct (String.eqb _ _).
Qed.

Lemma occurrences_append (c : ascii) (s t : string) :
  occurrences c (s ++ t) = (occurrences c s + occurrences c t)%nat.
Proof. induction s as [|c' s IH]; simpl; [reflexivity | rewrite IH; lia]. Qed.

Lemma isOrdered_Ordered (query : string) :
  isOrdered query = true <-> Ordered query.
Proof.
  unfold isOrdered, Ordered.
  rewrite !orb_true_iff, !HasSuffix_EndsWith. tauto.
Qed.

(** ** [applyFilter] *)

Section ApplyFilter.

Import db sql.

Lemma args_loop (ids : list Z) (args : list arg) :
  fold_left (fun args meetingID => (args ++ [Int64 meetingID])%list) ids args
  = (args ++ map Int64 ids)%list.
Proof.
  revert args. induction ids as [|i ids IH]; intros args; simpl.
  - now rewrite app_nil_r.
  - rewrite IH, <- app_assoc. reflexivity.
Qed.

Lemma Repeat_placeholders (n : nat) :
  strings.Repeat "?," n ++ "?" = placeholders (S n).
Proof.
  unfold placeholders. induction n as [|n IH]; [reflexivity|].
  change (strings.Repeat "?," (S n)) with ("?," ++ strings.Repeat "?," n).
  rewrite append_assoc, IH. reflexivity.
Qed.

Lemma placeholders_count (n : nat) : occurrences "?" (placeholders n) = n.
Proof.
  unfold placeholders. induction n as [|n IH]; [reflexivity|].
  destruct n as [|n]; [reflexivity|].
  change (List.repeat "?" (S (S n))) with ("?" :: List.repeat "?" (S n)).
  change (strings.Join ("?" :: List.repeat "?" (S n)) ",")
    with ("?" ++ "," ++ strings.Join (List.repeat "?" (S n)) ",").
  rewrite !occurrences_append, IH. reflexivity.
Qed.

Lemma direction_cases (orderBy : string) :
  (orderBy = "ASC" /\ direction orderBy = " ASC")
  \/ (orderBy = "DESC" /\ direction orderBy = " DESC")
  \/ (orderBy <> "ASC" /\ orderBy <> "DESC" /\ direction orderBy = "").
Proof.
  unfold direction.
  destruct (String.eqb_spec orderBy "ASC") as [->|Hasc]; [now left|].
  destruct (String.eqb_spec orderBy "DESC") as [->|Hdesc]; [now right; left|].
  now right; right.
Qed.

(** The tail [applyFilter] appends after the predicates. *)
Lemma order_tail (query orderBy : string) :
  (if (0 <? Z.of_nat (String.length orderBy))
      && (String.eqb orderBy "ASC" || String.eqb orderBy "DESC")
   then (query ++ orderByClause) ++ " " ++ orderBy
   else query ++ orderByClause)
  = query ++ orderByClause ++ direction orderBy.
Proof.
  unfold direction.
  destruct (String.eqb_spec orderBy "ASC") as [->|Hasc].
  { simpl. now rewrite append_assoc. }
  destruct (String.eqb_spec orderBy "DESC") as [->|Hdesc].
  { simpl. now rewrite append_assoc. }
  rewrite andb_false_r, append_nil_r. reflexivity.
Qed.

(** [applyFilter] on a present filter, clause by clause. *)
Lemma applyFilter_present (query : string) (f : ListRacesRequestFilter) :
  applyFilter query (Some f)
  = (query
     ++ match MeetingIds f, VisibleOnly f with
        | [], false => ""
        | [], true => " WHERE " ++ visibilityClause
        | _ :: _, false =>
            " WHERE " ++ membershipClause (List.length (MeetingIds f))
        | _ :: _, true =>
            " WHERE " ++ membershipClause (List.length (MeetingIds f))
            ++ " AND " ++ visibilityClause
        end
     ++ orderByClause ++ direction (OrderBy f),
     map Int64 (MeetingIds f)).
Proof.
  destruct f as [ids vis ord]. unfold applyFilter.
  cbn [MeetingIds VisibleOnly OrderBy].
  destruct ids as [|i ids].
  - destruct vis; cbn -[String.append String.eqb String.length direction];
      rewrite order_tail; rewrite ?append_assoc; reflexivity.
  - replace (0 <? Z.of_nat (List.length (i :: ids))) with true
      by (symmetry; apply Z.ltb_lt; simpl List.length; lia).
    rewrite args_loop.
    replace (List.length (i :: ids) - 1)%nat with (List.length ids)
      by (simpl; lia).
    assert (Hm : "meeting_id IN (" ++ strings.Repeat "?," (List.length ids) ++ "?)"
                 = membershipClause (List.length (i :: ids))).
    { unfold membershipClause. simpl List.length.
      rewrite <- Repeat_placeholders.
      rewrite !append_assoc. reflexivity. }
    rewrite Hm. clear Hm.
    generalize (membershipClause (List.length (i :: ids))). intros m.
    destruct vis; cbn -[String.append String.eqb String.length direction];
      rewrite order_tail; rewrite ?append_assoc; reflexivity.
Qed.

End ApplyFilter.

Lemma direction_no_placeholder (orderBy : string) :
  occurrences "?" (direction orderBy) = 0%nat.
Proof.
  destruct (direction_cases orderBy) as [[_ ->]|[[_ ->]|(_ & _ & ->)]];
    reflexivity.
Qed.

(** C6.  On a present filter the builder appends, in this order: the
    membership clause on [meeting_id], with one placeholder per identifier and
    the identifiers as the arguments, in their order, when there is at least
    one identifier, and nothing for it when there is none; the clause
    [visible=true] when the flag is set; [WHERE] before the first clause and
    [AND] between the two.  The text of the query depends on how many
    identifiers there are and not on their values, and it holds as many
    placeholders more than the template as there are arguments. *)
Theorem applyFilter_predicate_clauses
        (query : string) (f : db.ListRacesRequestFilter) :
  let n := List.length (db.MeetingIds f) in
  let tail := orderByClause ++ direction (db.OrderBy f) in
  snd (db.applyFilter query (Some f)) = map sql.Int64 (db.MeetingIds f)
  /\ fst (db.applyFilter query (Some f))
     = match db.MeetingIds f, db.VisibleOnly f with
       | [], false => query ++ tail
       | [], true => query ++ " WHERE visible=true" ++ tail
       | _ :: _, false =>
           query ++ " WHERE meeting_id IN (" ++ placeholders n ++ ")" ++ tail
       | _ :: _, true =>
           query ++ " WHERE meeting_id IN (" ++ placeholders n
                 ++ ") AND visible=true" ++ tail
       end
  /\ occurrences "?" (fst (db.applyFilter query (Some f)))
     = (occurrences "?" query
        + List.length (snd (db.applyFilter query (Some f))))%nat
  /\ fst (db.applyFilter query
            (Some {| db.MeetingIds := List.repeat 0 n;
                     db.VisibleOnly := db.VisibleOnly f;
                     db.OrderBy := db.OrderBy f |}))
     = fst (db.applyFilter query (Some f)).
Proof.
  intros n tail. rewrite !applyFilter_present. cbn [fst snd].
  cbn [db.MeetingIds db.VisibleOnly db.OrderBy].
  split; [reflexivity|]. split; [|split].
  - unfold membershipClause, visibilityClause. fold n. fold tail.
    destruct (db.MeetingIds f), (db.VisibleOnly f); cbn [String.append];
      rewrite ?append_assoc; reflexivity.
  - rewrite length_map. fold n.
    rewrite !occurrences_append, direction_no_placeholder.
    assert (Hm : occurrences "?" (membershipClause n) = n).
    { unfold membershipClause.
      rewrite !occurrences_append, placeholders_count. simpl. lia. }
    subst n.
    destruct (db.MeetingIds f) as [|i ids], (db.VisibleOnly f);
      rewrite ?occurrences_append, ?Hm; simpl; lia.
  - rewrite repeat_length. fold n.
    subst n. destruct (db.MeetingIds f); reflexivity.
Qed.

(** C1.  On an absent filter [applyFilter] returns the template as it is:
    asked for the races with no filter, it gives a query that ends with no
    ordering clause.  On a present filter the query does end with the
    ordering clause, with the direction of an order directive that is exactly
    ["ASC"] or ["DESC"] and with none for the empty directive or one in
    another case. *)
Theorem applyFilter_absent_filter_not_ordered :
  db.applyFilter selectRaces None = (selectRaces, [])
  /\ isOrdered (fst (db.applyFilter selectRaces None)) = false
  /\ ~ Ordered (fst (db.applyFilter selectRaces None))
  /\ (forall query f,
        EndsWith (fst (db.applyFilter query (Some f)))
                 (orderByClause ++ direction (db.OrderBy f)))
  /\ direction "ASC" = " ASC" /\ direction "DESC" = " DESC"
  /\ direction "" = "" /\ direction "desc" = "".
Proof.
  split; [reflexivity|]. split; [reflexivity|]. split.
  - intros Hord. apply isOrdered_Ordered in Hord. discriminate Hord.
  - split; [|repeat split].
    intros query f. rewrite applyFilter_present. cbn [fst].
    eexists. rewrite <- append_assoc. reflexivity.
Qed.

(** ** [List] *)

Section ListFacts.

Import db sql.
Context {DB : Type} {S : Store DB}.

(** [List] is the mapping of what the store answers to the built query. *)
Lemma List_unfold (r : racesRepo DB) (clock : nat -> time.Time)
      (filter : option ListRacesRequestFilter) :
  List r clock filter
  = match Query (repo_db r) (fst (applyFilter racesListQuery filter))
                (snd (applyFilter racesListQuery filter)) with
    | inr err => ([], Some err)
    | inl rows => scanRaces clock rows
    end.
Proof.
  unfold List. destruct (applyFilter racesListQuery filter). reflexivity.
Qed.

End ListFacts.

(** C2, as stated, fails: [descendingOnly] has no identifier and the flag
    unset, yet on the store [twoRaces] it lists the late race first, and the
    absent filter lists the early race first. *)
Lemma List_empty_filter_differs_from_absent :
  db.MeetingIds descendingOnly = []
  /\ db.VisibleOnly descendingOnly = false
  /\ db.List (S := twoRaces) (db.NewRacesRepo tt) (at_ 150000000000)
             (Some descendingOnly)
     <> db.List (S := twoRaces) (db.NewRacesRepo tt) (at_ 150000000000) None.
Proof.
  split; [reflexivity|]. split; [reflexivity|].
  vm_compute. discriminate.
Qed.

(** C2, amended.  For a filter with no identifier and the flag unset the
    query is the template followed by the ordering clause and the direction
    its order directive selects, with no [WHERE] clause and no argument; so
    two such filters whose directives select the same direction are listed
    alike, the same records in the same order. *)
Theorem List_empty_filter_by_direction
        {DB : Type} {S : sql.Store DB} (r : db.racesRepo DB)
        (clock : nat -> time.Time) (f f' : db.ListRacesRequestFilter) :
  db.MeetingIds f = [] -> db.VisibleOnly f = false ->
  db.MeetingIds f' = [] -> db.VisibleOnly f' = false ->
  direction (db.OrderBy f) = direction (db.OrderBy f') ->
  db.applyFilter sql.racesListQuery (Some f)
  = (sql.racesListQuery ++ orderByClause ++ direction (db.OrderBy f), [])
  /\ db.List r clock (Some f) = db.List r clock (Some f').
Proof.
  intros Hids Hvis Hids' Hvis' Hdir.
  assert (Hq : forall g, db.MeetingIds g = [] -> db.VisibleOnly g = false ->
                 db.applyFilter sql.racesListQuery (Some g)
                 = (sql.racesListQuery ++ orderByClause
                      ++ direction (db.OrderBy g), [])).
  { intros g Hg Hv. rewrite applyFilter_present, Hg, Hv. reflexivity. }
  split; [now apply Hq|].
  rewrite !List_unfold, (Hq f), (Hq f'), Hdir by assumption. reflexivity.
Qed.

Lemma List_empty_filter_by_direction_witness :
  db.applyFilter selectRaces
    (Some {| db.MeetingIds := []; db.VisibleOnly := false; db.OrderBy := "" |})
  = (selectRaces ++ orderByClause, [])
  /\ db.List (S := twoRaces) (db.NewRacesRepo tt) (at_ 150000000000)
       (Some {| db.MeetingIds := []; db.VisibleOnly := false; db.OrderBy := "" |})
     = db.List (S := twoRaces) (db.NewRacesRepo tt) (at_ 150000000000)
         (Some {| db.MeetingIds := []; db.VisibleOnly := false;
                  db.OrderBy := "descending" |}).
Proof.
  exact (List_empty_filter_by_direction (S := twoRaces)
           (db.NewRacesRepo tt) (at_ 150000000000)
           {| db.MeetingIds := []; db.VisibleOnly := false; db.OrderBy := "" |}
           {| db.MeetingIds := []; db.VisibleOnly := false;
              db.OrderBy := "descending" |}
           eq_refl eq_refl eq_refl eq_refl eq_refl).
Defined.

(** ** [scanRaces] *)

Lemma instant_of_time (t : time.Time) :
  ptypes.instant {| ptypes.Seconds := time.Unix t;
                    ptypes.Nanos := time.Nanosecond t |} = t.
Proof.
  unfold ptypes.instant, time.Unix, time.Nanosecond. cbn.
  pose proof (Z.div_mod t 1000000000). lia.
Qed.

Lemma TimestampProto_timestamp (t : time.Time) (ts : ptypes.Timestamp) :
  ptypes.TimestampProto t = inl ts ->
  ts = {| ptypes.Seconds := time.Unix t; ptypes.Nanos := time.Nanosecond t |}.
Proof.
  unfold ptypes.TimestampProto.
  repeat match goal with |- context [if ?b then _ else _] => destruct b end;
    intros Hts; try discriminate Hts; now injection Hts as <-.
Qed.

Lemma TimestampProto_error (t : time.Time) (e : error) :
  ptypes.TimestampProto t = inr e -> e <> ErrNoRows.
Proof.
  unfold ptypes.TimestampProto.
  repeat match goal with |- context [if ?b then _ else _] => destruct b end;
    intros He; try discriminate He; injection He as <-; discriminate.
Qed.

Lemma mapped_length clock k rows races :
  mapped clock k rows races -> List.length races = List.length rows.
Proof. induction 1; simpl; congruence. Qed.

Lemma mapped_nth clock k rows races :
  mapped clock k rows races ->
  forall j race, nth_error races j = Some race ->
    exists r, nth_error rows j = Some r /\ maps (clock (k + j)%nat) r race.
Proof.
  induction 1 as [k|k r race0 rows races Hmaps _ IH]; intros j race Hj.
  - destruct j; discriminate Hj.
  - destruct j as [|j]; simpl in Hj.
    + injection Hj as <-. exists r. now rewrite Nat.add_0_r.
    + destruct (IH j race Hj) as (r' & Hr' & Hm). exists r'.
      split; [exact Hr'|]. now rewrite Nat.add_succ_r.
Qed.

Lemma maps_status now r race :
  maps now r race ->
  db.Status race
  = statusAt (ptypes.instant (db.AdvertisedStartTime race)) now.
Proof.
  destruct r; [intros ->; cbn [db.Status db.AdvertisedStartTime]|intros []].
  now rewrite instant_of_time.
Qed.

(** Two mappings of one row agree on all but the status. *)
Lemma maps_same_row now now' r race race' :
  maps now r race -> maps now' r race' ->
  db.RaceId race' = db.RaceId race
  /\ db.MeetingId race' = db.MeetingId race
  /\ db.Name race' = db.Name race
  /\ db.Number race' = db.Number race
  /\ db.Visible race' = db.Visible race
  /\ db.AdvertisedStartTime race' = db.AdvertisedStartTime race.
Proof.
  destruct r; [intros -> ->; cbn; repeat split|intros []].
Qed.

(** The three ways the loop ends: an error, with no race; the no-rows
    sentinel, with no race and no error; or every row mapped, in order, after
    the races mapped before. *)
Lemma scanLoop_ends (clock : nat -> time.Time) (rows : sql.Rows) :
  forall (k : nat) (acc races : list db.Race) (err : option error),
    db.scanLoop clock k rows acc = (races, err) ->
    (races = [] /\ exists e, err = Some e /\ e <> ErrNoRows)
    \/ (races = [] /\ err = None /\ In (sql.ScanError ErrNoRows) rows)
    \/ (err = None /\ exists new, races = (acc ++ new)%list
                                  /\ mapped clock k rows new).
Proof.
  induction rows as [|r rows IH]; intros k acc races err Hloop.
  - right; right. injection Hloop as <- <-. split; [reflexivity|].
    exists []. rewrite app_nil_r. split; [reflexivity | apply mapped_nil].
  - destruct r as [id m name num vis start|e]; cbn [db.scanLoop] in Hloop.
    + destruct (ptypes.TimestampProto start) as [ts|e] eqn:Hconv.
      * apply TimestampProto_timestamp in Hconv. subst ts.
        apply IH in Hloop.
        destruct Hloop as [Herr|[(-> & -> & Hin)|(-> & new & -> & Hnew)]].
        -- now left.
        -- right; left. repeat split. now right.
        -- right; right. split; [reflexivity|].
           eexists (_ :: new). rewrite <- app_assoc. split; [reflexivity|].
           apply mapped_cons; [reflexivity | exact Hnew].
      * left. injection Hloop as <- <-. split; [reflexivity|].
        exists e. split; [reflexivity|].
        exact (TimestampProto_error _ _ Hconv).
    + destruct e as [|msg]; cbn [is_ErrNoRows] in Hloop;
        injection Hloop as <- <-.
      * right; left. repeat split. now left.
      * left. split; [reflexivity|]. eexists. split; [reflexivity|discriminate].
Qed.

(** A run of the mapper that returns a race has mapped every row. *)
Lemma scanRaces_mapped clock rows races err k race :
  db.scanRaces clock rows = (races, err) ->
  nth_error races k = Some race ->
  mapped clock 0 rows races.
Proof.
  intros Hscan Hk. apply scanLoop_ends in Hscan.
  destruct Hscan as [(-> & _)|[(-> & _)|(_ & new & -> & Hnew)]];
    [destruct k; discriminate Hk .. | exact Hnew].
Qed.

(** C5.  Every race the mapper returns has the status ["CLOSED"] exactly when
    its advertised start time is before the reading of the clock taken for it,
    and ["OPEN"] exactly when it is not, so also when the two are equal.  The
    status is derived from the row at each read: mapping the same rows again
    gives the same start time with the status of the new reading. *)
Theorem status_derived_at_read_time
        (clock : nat -> time.Time) (rows : sql.Rows)
        (races : list db.Race) (err : option error)
        (k : nat) (race : db.Race) :
  db.scanRaces clock rows = (races, err) ->
  nth_error races k = Some race ->
  let start := ptypes.instant (db.AdvertisedStartTime race) in
  (db.Status race = "CLOSED" <-> start < clock k)
  /\ (db.Status race = "OPEN" <-> clock k <= start)
  /\ (start = clock k -> db.Status race = "OPEN")
  /\ forall clock' races' err' race',
       db.scanRaces clock' rows = (races', err') ->
       nth_error races' k = Some race' ->
       db.AdvertisedStartTime race' = db.AdvertisedStartTime race
       /\ (db.Status race' = "CLOSED" <-> start < clock' k)
       /\ (db.Status race' = "OPEN" <-> clock' k <= start).
Proof.
  intros Hscan Hk start.
  assert (Hstatus : forall c rs e r,
            db.scanRaces c rows = (rs, e) -> nth_error rs k = Some r ->
            exists row, nth_error rows k = Some row /\ maps (c k) row r).
  { intros c rs e r Hs Hr.
    pose proof (scanRaces_mapped _ _ _ _ _ _ Hs Hr) as Hm.
    exact (mapped_nth _ _ _ _ Hm k r Hr). }
  assert (Hiff : forall now r,
            db.Status r = statusAt (ptypes.instant (db.AdvertisedStartTime r)) now ->
            (db.Status r = "CLOSED"
             <-> ptypes.instant (db.AdvertisedStartTime r) < now)
            /\ (db.Status r = "OPEN"
                <-> now <= ptypes.instant (db.AdvertisedStartTime r))).
  { intros now r ->. unfold statusAt.
    destruct (Z.ltb_spec (ptypes.instant (db.AdvertisedStartTime r)) now);
      split; split; intros; try reflexivity; try lia; discriminate. }
  destruct (Hstatus _ _ _ _ Hscan Hk) as (row & Hrow & Hmaps).
  destruct (Hiff _ _ (maps_status _ _ _ Hmaps)) as [Hclosed Hopen].
  split; [exact Hclosed|]. split; [exact Hopen|]. split.
  - intros Heq. apply Hopen. lia.
  - intros clock' races' err' race' Hscan' Hk'.
    destruct (Hstatus _ _ _ _ Hscan' Hk') as (row' & Hrow' & Hmaps').
    rewrite Hrow in Hrow'. injection Hrow' as <-.
    destruct (maps_same_row _ _ _ _ _ Hmaps Hmaps') as (_ & _ & _ & _ & _ & Hts).
    split; [exact Hts|].
    destruct (Hiff _ _ (maps_status _ _ _ Hmaps')) as [Hclosed' Hopen'].
    rewrite Hts in Hclosed', Hopen'. split; assumption.
Qed.

Lemma status_derived_at_read_time_witness :
  db.Status earlyRaceClosed = "CLOSED"
  <-> ptypes.instant (db.AdvertisedStartTime earlyRaceClosed) < 150000000000.
Proof.
  exact (proj1 (status_derived_at_read_time
                  (at_ 150000000000) [earlyRace; lateRace]
                  [earlyRaceClosed; lateRaceOpen] None 0 earlyRaceClosed
                  eq_refl eq_refl)).
Defined.

(** Rows after which the no-rows sentinel comes are dropped with it. *)
Lemma scanLoop_sentinel (clock : nat -> time.Time) (rows rest : sql.Rows) :
  forall (k : nat) (acc races : list db.Race),
    db.scanLoop clock k rows acc = (races, None) ->
    db.scanLoop clock k (rows ++ sql.ScanError ErrNoRows :: rest)%list acc
    = ([], None).
Proof.
  induction rows as [|r rows IH]; intros k acc races Hloop.
  - reflexivity.
  - rewrite <- app_comm_cons.
    destruct r as [id m name num vis start|e];
      cbn [db.scanLoop] in Hloop |- *.
    + destruct (ptypes.TimestampProto start) as [ts|e].
      * exact (IH _ _ _ Hloop).
      * discriminate Hloop.
    + destruct e; cbn [is_ErrNoRows] in Hloop |- *;
        [reflexivity | discriminate Hloop].
Qed.

(** C8.  On no row the mapper returns no race and no error; it does the same
    when a scan reports the no-rows sentinel; [List] then returns no race and
    no error as well; and when the mapper succeeds without meeting the
    sentinel its races are the rows, one for one and in their order. *)
Theorem no_rows_is_an_empty_success
        {DB : Type} {S : sql.Store DB} (r : db.racesRepo DB)
        (clock : nat -> time.Time) (filter : option db.ListRacesRequestFilter) :
  db.scanRaces clock [] = ([], None)
  /\ (forall rows rest races,
        db.scanRaces clock rows = (races, None) ->
        db.scanRaces clock (rows ++ sql.ScanError ErrNoRows :: rest)%list
        = ([], None))
  /\ (forall rows,
        sql.Query (db.repo_db r)
                  (fst (db.applyFilter sql.racesListQuery filter))
                  (snd (db.applyFilter sql.racesListQuery filter)) = inl rows ->
        (rows = [] \/ exists rest, rows = sql.ScanError ErrNoRows :: rest) ->
        db.List r clock filter = ([], None))
  /\ (forall rows races,
        db.scanRaces clock rows = (races, None) ->
        ~ In (sql.ScanError ErrNoRows) rows ->
        mapped clock 0 rows races
        /\ List.length races = List.length rows).
Proof.
  split; [reflexivity|]. split; [|split].
  - intros rows rest races Hscan. exact (scanLoop_sentinel _ _ _ _ _ _ Hscan).
  - intros rows Hquery Hrows. rewrite List_unfold, Hquery.
    destruct Hrows as [->|[rest ->]]; reflexivity.
  - intros rows races Hscan Hnone. apply scanLoop_ends in Hscan.
    destruct Hscan as [(_ & e & He & _)|[(_ & _ & Hin)|(_ & new & -> & Hnew)]].
    + discriminate He.
    + contradiction.
    + split; [exact Hnew | exact (mapped_length _ _ _ _ Hnew)].
Qed.

Lemma no_rows_is_an_empty_success_witness :
  db.scanRaces (at_ 150000000000) ([earlyRace] ++ sql.ScanError ErrNoRows :: [lateRace])%list
  = ([], None)
  /\ db.List (S := noRaces) (db.NewRacesRepo tt) (at_ 150000000000) None
     = ([], None)
  /\ (mapped (at_ 150000000000) 0 [earlyRace; lateRace]
             [earlyRaceClosed; lateRaceOpen]
      /\ List.length [earlyRaceClosed; lateRaceOpen]
         = List.length [earlyRace; lateRace]).
Proof.
  pose proof (no_rows_is_an_empty_success (S := noRaces) (db.NewRacesRepo tt)
                (at_ 150000000000) None) as (_ & Hsentinel & Hlist & Horder).
  split; [|split].
  - exact (Hsentinel [earlyRace] [lateRace] [earlyRaceClosed] eq_refl).
  - exact (Hlist [] eq_refl (or_introl eq_refl)).
  - apply Horder; [reflexivity|].
    intros [Hin|[Hin|[]]]; discriminate Hin.
Defined.

(** ** [Get] *)

Lemma ParseInt_FormatInt (i : Z) :
  strconv.ParseInt (strconv.FormatInt i) = Some i.
Proof.
  unfold strconv.ParseInt, strconv.FormatInt.
  rewrite NilZero.isi.
  - cbn [option_map]. now rewrite DecimalZ.of_to.
  - destruct i; cbn; [discriminate | |discriminate].
    intros Hp. injection Hp. apply DecimalPos.Unsigned.to_uint_nonnil.
  - destruct i; cbn; [discriminate|discriminate|].
    intros Hp. injection Hp. apply DecimalPos.Unsigned.to_uint_nonnil.
Qed.

Section GetFacts.

Import db sql.
Context {DB : Type} {S : Store DB}.

Lemma Get_unfold (r : racesRepo DB) (clock : nat -> time.Time)
      (req : GetRaceRequest) :
  Get r clock req
  = match Query (repo_db r) (getQuery req) [] with
    | inr err => (None, Some err)
    | inl rows =>
        match scanRaces clock rows with
        | ([], err) => (None, err)
        | (race :: _, err) => (Some race, err)
        end
    end.
Proof.
  unfold Get, getQuery. destruct (Query _ _ _) as [rows|err]; [|reflexivity].
  destruct (scanRaces clock rows) as [[|race races] err]; reflexivity.
Qed.

End GetFacts.

(** C7.  [Get] executes the list query template followed by [WHERE id=] and
    the identifier written in decimal, which reads back as the identifier,
    and it passes no argument: its outcome depends on the store through the
    answer to that text with the empty argument list and through nothing
    else. *)
Theorem Get_concatenates_the_identifier
        {DB : Type} {S : sql.Store DB} (r r' : db.racesRepo DB)
        (clock : nat -> time.Time) (req : db.GetRaceRequest) :
  let query :=
    fst (db.applyFilter sql.racesListQuery None)
    ++ " WHERE id=" ++ strconv.FormatInt (db.Id req) in
  db.Get r clock req
  = match sql.Query (db.repo_db r) query [] with
    | inr err => (None, Some err)
    | inl rows =>
        match db.scanRaces clock rows with
        | ([], err) => (None, err)
        | (race :: _, err) => (Some race, err)
        end
    end
  /\ strconv.ParseInt (strconv.FormatInt (db.Id req)) = Some (db.Id req)
  /\ (sql.Query (db.repo_db r) query [] = sql.Query (db.repo_db r') query [] ->
      db.Get r clock req = db.Get r' clock req).
Proof.
  cbn zeta. cbn [db.applyFilter fst]. fold (getQuery req).
  split; [apply Get_unfold|]. split; [apply ParseInt_FormatInt|].
  intros Hsame. now rewrite !Get_unfold, Hsame.
Qed.

Lemma Get_concatenates_the_identifier_witness :
  strconv.FormatInt 42 = "42"
  /\ strconv.FormatInt (-7) = "-7"
  /\ db.Get (S := brokenSeed) (db.NewRacesRepo 0%nat) (at_ 0)
            {| db.Id := 42 |}
     = db.Get (S := brokenSeed) (db.NewRacesRepo 1%nat) (at_ 0)
              {| db.Id := 42 |}.
Proof.
  split; [reflexivity|]. split; [reflexivity|].
  exact (proj2 (proj2 (Get_concatenates_the_identifier (S := brokenSeed)
                         (db.NewRacesRepo 0%nat) (db.NewRacesRepo 1%nat)
                         (at_ 0) {| db.Id := 42 |})) eq_refl).
Defined.

(** C4.  When the store answers the query of [Get] with no row, [Get] returns
    no race and no error.  A store error comes back as no race and that
    error, so the two are told apart by the error; and a race that [Get]
    returns is the first row of the answer, mapped, with no error. *)
Theorem Get_not_found
        {DB : Type} {S : sql.Store DB} (r : db.racesRepo DB)
        (clock : nat -> time.Time) (req : db.GetRaceRequest) :
  (sql.Query (db.repo_db r) (getQuery req) [] = inl [] ->
   db.Get r clock req = (None, None))
  /\ (forall err,
        sql.Query (db.repo_db r) (getQuery req) [] = inr err ->
        db.Get r clock req = (None, Some err))
  /\ (forall race err,
        db.Get r clock req = (Some race, err) ->
        err = None
        /\ exists row rows,
             sql.Query (db.repo_db r) (getQuery req) [] = inl (row :: rows)
             /\ maps (clock 0%nat) row race).
Proof.
  rewrite Get_unfold. split; [|split].
  - intros ->. reflexivity.
  - intros err ->. reflexivity.
  - intros race err Hget.
    destruct (sql.Query _ _ _) as [rows|e]; [|discriminate Hget].
    destruct (db.scanRaces clock rows) as [[|race0 races] err0] eqn:Hscan;
      [discriminate Hget|].
    injection Hget as -> ->.
    pose proof (scanRaces_mapped clock rows _ _ 0 race Hscan eq_refl) as Hm.
    apply scanLoop_ends in Hscan.
    destruct Hscan as [(Hnil & _)|[(Hnil & _)|(-> & _)]];
      try discriminate Hnil.
    split; [reflexivity|].
    inversion Hm as [|k row race1 rows1 races1 Hmaps Hrest]; subst.
    exists row, rows1. split; [reflexivity | exact Hmaps].
Qed.

Lemma Get_not_found_witness :
  db.Get (S := noRaces) (db.NewRacesRepo tt) (at_ 0) {| db.Id := 5 |}
  = (None, None).
Proof.
  exact (proj1 (Get_not_found (S := noRaces) (db.NewRacesRepo tt) (at_ 0)
                  {| db.Id := 5 |}) eq_refl).
Defined.

(** ** [Init] *)

Section InitFacts.

Import db sql.
Context {DB : Type} {S : Store DB}.

Lemma Init_first (d : DB) :
  Init (NewRacesRepo d)
  = ({| repo_db := fst (seed d); repo_init := {| sync.done := true |} |},
     snd (seed d)).
Proof.
  unfold Init, NewRacesRepo, sync.Do. cbn.
  destruct (seed d). reflexivity.
Qed.

Lemma Init_later (r : racesRepo DB) :
  sync.done (repo_init r) = true -> Init r = (r, None).
Proof.
  destruct r as [d [b]]. cbn. intros ->. reflexivity.
Qed.

Lemma InitTimes_later (n : nat) (r : racesRepo DB) :
  sync.done (repo_init r) = true ->
  InitTimes n r = (r, List.repeat None n).
Proof.
  intros Hdone. induction n as [|n IH]; [reflexivity|].
  cbn [InitTimes]. rewrite (Init_later r Hdone), IH. reflexivity.
Qed.

End InitFacts.

(** C3, as stated, fails: on the store [brokenSeed] the first [Init] returns
    the seed's failure and the second returns no error. *)
Lemma Init_second_call_hides_failure :
  snd (db.Init (S := brokenSeed) (db.NewRacesRepo 0%nat))
  = Some (ErrOther "seed failed")
  /\ snd (db.Init (S := brokenSeed)
            (fst (db.Init (S := brokenSeed) (db.NewRacesRepo 0%nat))))
     = None
  /\ snd (db.Init (S := brokenSeed)
            (fst (db.Init (S := brokenSeed) (db.NewRacesRepo 0%nat))))
     <> snd (db.Init (S := brokenSeed) (db.NewRacesRepo 0%nat)).
Proof.
  split; [reflexivity|]. split; [reflexivity|]. cbn. discriminate.
Qed.

(** C3, amended.  However many times [Init] is called on a new repository,
    one call after the other, the seed runs once, in the first call: the
    store is left as one run of the seed leaves it, the first call returns
    what the seed returned, and every later call returns no error, whether
    the seed failed or not. *)
Theorem Init_seeds_once
        {DB : Type} {S : sql.Store DB} (d : DB) (n : nat) :
  InitTimes (Datatypes.S n) (db.NewRacesRepo d)
  = ({| db.repo_db := fst (sql.seed d);
        db.repo_init := {| sync.done := true |} |},
     snd (sql.seed d) :: List.repeat None n)
  /\ InitTimes 0 (db.NewRacesRepo d) = (db.NewRacesRepo d, []).
Proof.
  split; [|reflexivity].
  cbn [InitTimes]. rewrite Init_first, InitTimes_later by reflexivity.
  reflexivity.
Qed.

(** ** [ListEvents] *)

(** C10.  [ListEvents] calls the repository's [List] with the filter of the
    request.  When that returns an error, [ListEvents] returns no response and
    the same error; otherwise it returns a response whose events are the
    slice the repository returned, and no error. *)
Theorem ListEvents_delegates
        {Filter Event R : Type} {repo : service.EventsRepo Filter Event R}
        (s : service.sportService R) (in_ : service.ListEventsRequest Filter)
        (events : list Event) (err : option error) :
  service.repoList (service.eventsRepo s) (service.RequestFilter in_)
  = (events, err) ->
  service.ListEvents s in_
  = match err with
    | Some e => (None, Some e)
    | None => (Some {| service.Events := events |}, None)
    end.
Proof.
  intros Hlist. unfold service.ListEvents. rewrite Hlist. reflexivity.
Qed.

Lemma ListEvents_delegates_witness :
  service.ListEvents (repo := echoRepo) (service.NewSportsService tt)
                     {| service.RequestFilter := Some [3; 1; 2]%nat |}
  = (Some {| service.Events := [3; 1; 2]%nat |}, None)
  /\ service.ListEvents (repo := echoRepo) (service.NewSportsService tt)
                        {| service.RequestFilter := None |}
     = (None, Some (ErrOther "no filter")).
Proof.
  split.
  - exact (ListEvents_delegates (repo := echoRepo) (service.NewSportsService tt)
             {| service.RequestFilter := Some [3; 1; 2]%nat |}
             [3; 1; 2]%nat None eq_refl).
  - exact (ListEvents_delegates (repo := echoRepo) (service.NewSportsService tt)
             {| service.RequestFilter := None |}
             [] (Some (ErrOther "no filter")) eq_refl).
Defined.

(** ** The gateway's [run] *)

(** C9.  [run] registers the racing backend, then the sports backend, then
    serves.  When the racing registration fails, [run] returns its error
    having done nothing more; when the sports registration fails, [run]
    returns its error having made the two registrations only; and it is when
    both succeed, and then only, that [run] logs the address and serves,
    on the multiplexer both registrations have filled. *)
Theorem run_serves_after_both_registrations
        {Mux : Type} {R : gateway.Runtime Mux} (fl : gateway.flags) :
  let racing :=
    gateway.RegisterRacingHandlerFromEndpoint
      gateway.NewServeMux (gateway.racingEndpoint fl) in
  let sports :=
    gateway.RegisterSportsHandlerFromEndpoint
      (fst racing) (gateway.sportsEndpoint fl) in
  gateway.run fl
  = match snd racing, snd sports with
    | Some racingErr, _ =>
        ([gateway.RegisterRacing (gateway.racingEndpoint fl)], Some racingErr)
    | None, Some sportsErr =>
        ([gateway.RegisterRacing (gateway.racingEndpoint fl);
          gateway.RegisterSports (gateway.sportsEndpoint fl)], Some sportsErr)
    | None, None =>
        ([gateway.RegisterRacing (gateway.racingEndpoint fl);
          gateway.RegisterSports (gateway.sportsEndpoint fl);
          gateway.LogListening (gateway.apiEndpoint fl);
          gateway.Serve (gateway.apiEndpoint fl) (fst sports)],
         Some (gateway.ListenAndServe (gateway.apiEndpoint fl) (fst sports)))
    end
  /\ (existsb gateway.isServe (fst (gateway.run fl)) = true
      <-> snd racing = None /\ snd sports = None)
  /\ snd (gateway.run fl) <> None.
Proof.
  intros racing sports. unfold gateway.run. fold racing.
  destruct racing as [mux1 [racingErr|]] eqn:Hracing; cbn [fst snd] in *.
  - split; [reflexivity|]. split; [|discriminate].
    cbn. split; [discriminate | intros [Hr _]; discriminate Hr].
  - fold sports.
    destruct sports as [mux2 [sportsErr|]] eqn:Hsports; cbn [fst snd] in *.
    + split; [reflexivity|]. split; [|discriminate].
      cbn. split; [discriminate | intros [_ Hs]; discriminate Hs].
    + split; [reflexivity|]. split; [|discriminate].
      cbn. split; [now split | reflexivity].
Qed.

(** On [strictSports], a wrong sports endpoint stops [run] before it serves,
    and the default flags take it to serving both services. *)
Example run_on_strictSports :
  gateway.run (R := strictSports)
    {| gateway.apiEndpoint := "localhost:8000";
       gateway.racingEndpoint := "localhost:9000";
       gateway.sportsEndpoint := "nowhere" |}
  = ([gateway.RegisterRacing "localhost:9000"; gateway.RegisterSports "nowhere"],
     Some (ErrOther "sports: bad endpoint"))
  /\ gateway.run (R := strictSports) gateway.defaultFlags
     = ([gateway.RegisterRacing "localhost:9000";
         gateway.RegisterSports "localhost:10000";
         gateway.LogListening "localhost:8000";
         gateway.Serve "localhost:8000" ["sports"; "racing"]],
        Some (ErrOther "http: Server closed")).
Proof. split; reflexivity. Qed.

(** * Further properties of the code *)

(** ** [applyFilter], further *)

(** X1.  [applyFilter] only appends to the query it is given, and what it
    appends and the arguments it returns do not depend on that query: building
    on a query with a text in front is building on the query and putting the
    text in front afterwards. *)
Theorem applyFilter_appends
        (front query : string) (filter : option db.ListRacesRequestFilter) :
  db.applyFilter (front ++ query) filter
  = (front ++ fst (db.applyFilter query filter),
     snd (db.applyFilter query filter)).
Proof.
  destruct filter as [f|]; [|reflexivity].
  rewrite !applyFilter_present. cbn [fst snd].
  now rewrite append_assoc.
Qed.

(** X2.  An order directive that is neither ["ASC"] nor ["DESC"] changes
    nothing: the query and the arguments are those of the same filter with the
    empty directive, so no byte of such a directive reaches the query. *)
Theorem applyFilter_ignores_other_directives
        (query orderBy : string) (f : db.ListRacesRequestFilter) :
  orderBy <> "ASC" -> orderBy <> "DESC" ->
  db.applyFilter query (Some (withOrderBy f orderBy))
  = db.applyFilter query (Some (withOrderBy f "")).
Proof.
  intros Hasc Hdesc. rewrite !applyFilter_present.
  cbn [withOrderBy db.MeetingIds db.VisibleOnly db.OrderBy].
  destruct (direction_cases orderBy) as [[H _]|[[H _]|(_ & _ & ->)]];
    [contradiction | contradiction | reflexivity].
Qed.

Lemma applyFilter_ignores_other_directives_witness :
  db.applyFilter selectRaces
    (Some (withOrderBy descendingOnly "desc; DROP TABLE races"))
  = db.applyFilter selectRaces (Some (withOrderBy descendingOnly "")).
Proof.
  apply (applyFilter_ignores_other_directives selectRaces
           "desc; DROP TABLE races" descendingOnly); discriminate.
Defined.

Lemma placeholders_commas (n : nat) :
  occurrences "," (placeholders n) = (n - 1)%nat.
Proof.
  unfold placeholders. induction n as [|n IH]; [reflexivity|].
  destruct n as [|n]; [reflexivity|].
  change (List.repeat "?" (S (S n))) with ("?" :: List.repeat "?" (S n)).
  change (strings.Join ("?" :: List.repeat "?" (S n)) ",")
    with ("?" ++ "," ++ strings.Join (List.repeat "?" (S n)) ",").
  rewrite !occurrences_append, IH. simpl. lia.
Qed.

Lemma direction_no_comma (orderBy : string) :
  occurrences "," (direction orderBy) = 0%nat.
Proof.
  destruct (direction_cases orderBy) as [[_ ->]|[[_ ->]|(_ & _ & ->)]];
    reflexivity.
Qed.

(** X3.  The placeholders of the membership clause are separated and not
    ended by commas: for [n] identifiers the builder adds [n - 1] commas to
    the query, and none when there is no identifier. *)
Theorem applyFilter_separating_commas
        (query : string) (f : db.ListRacesRequestFilter) :
  occurrences "," (fst (db.applyFilter query (Some f)))
  = (occurrences "," query + (List.length (db.MeetingIds f) - 1))%nat.
Proof.
  rewrite applyFilter_present. cbn [fst].
  rewrite !occurrences_append, direction_no_comma.
  assert (Hm : forall n, occurrences "," (membershipClause n) = (n - 1)%nat).
  { intros n. unfold membershipClause.
    rewrite !occurrences_append, placeholders_commas. simpl. lia. }
  destruct (db.MeetingIds f) as [|i ids], (db.VisibleOnly f);
    rewrite ?occurrences_append, ?Hm; simpl; lia.
Qed.

(** ** [scanRaces], [List] and [Get], further *)

Lemma scanRaces_error (clock : nat -> time.Time) (rows : sql.Rows)
      (races : list db.Race) (e : error) :
  db.scanRaces clock rows = (races, Some e) -> races = [] /\ e <> ErrNoRows.
Proof.
  intros Hscan. apply scanLoop_ends in Hscan.
  destruct Hscan as [(-> & e' & He & Hne)|[(_ & He & _)|(He & _)]];
    try discriminate He.
  injection He as <-. now split.
Qed.

(** X4.  Neither the mapper, nor [List], nor [Get] returns a race together
    with an error: when the error is not nil the races are none, whether the
    store failed or a row did.  And the mapper never returns the no-rows
    sentinel as its error. *)
Theorem no_race_beside_an_error
        {DB : Type} {S : sql.Store DB} (r : db.racesRepo DB)
        (clock : nat -> time.Time) (e : error) :
  (forall rows races,
      db.scanRaces clock rows = (races, Some e) ->
      races = [] /\ e <> ErrNoRows)
  /\ (forall filter races,
        db.List r clock filter = (races, Some e) -> races = [])
  /\ (forall req race,
        db.Get r clock req = (race, Some e) -> race = None).
Proof.
  split; [|split].
  - intros rows races. apply scanRaces_error.
  - intros filter races. rewrite List_unfold.
    destruct (sql.Query _ _ _) as [rows|err].
    + intros Hscan. now apply scanRaces_error in Hscan.
    + intros Hlist. now injection Hlist as <- _.
  - intros req race. rewrite Get_unfold.
    destruct (sql.Query _ _ _) as [rows|err].
    + destruct (db.scanRaces clock rows) as [races err] eqn:Hscan.
      destruct races as [|race0 races]; intros Hget.
      * now injection Hget as <- _.
      * injection Hget as _ ->.
        apply scanRaces_error in Hscan. destruct Hscan as [Hnil _].
        discriminate Hnil.
    + intros Hget. now injection Hget as <- _.
Qed.

Lemma no_race_beside_an_error_witness :
  fst (db.List (S := brokenSeed) (db.NewRacesRepo 2%nat) (at_ 0) None) = []
  /\ fst (db.scanRaces (at_ 0)
            [earlyRace; sql.ScanError (ErrOther "converting NULL to int64")])
     = [].
Proof.
  pose proof (no_race_beside_an_error (S := brokenSeed) (db.NewRacesRepo 2%nat)
                (at_ 0) (ErrOther "database is locked")) as (_ & Hlist & _).
  pose proof (no_race_beside_an_error (S := brokenSeed) (db.NewRacesRepo 2%nat)
                (at_ 0) (ErrOther "converting NULL to int64")) as (Hscan & _).
  split.
  - exact (Hlist None [] eq_refl).
  - exact (proj1 (Hscan [earlyRace;
                         sql.ScanError (ErrOther "converting NULL to int64")]
                        [] eq_refl)).
Defined.

Lemma TimestampProto_valid (t : time.Time) (ts : ptypes.Timestamp) :
  ptypes.TimestampProto t = inl ts -> validTimestamp ts.
Proof.
  unfold ptypes.TimestampProto, validTimestamp. cbn [ptypes.Seconds ptypes.Nanos].
  destruct (Z.ltb_spec (time.Unix t) ptypes.minValidSeconds); [discriminate|].
  destruct (Z.leb_spec ptypes.maxValidSeconds (time.Unix t)); [discriminate|].
  destruct (Z.ltb_spec (time.Nanosecond t) 0); [discriminate|].
  destruct (Z.leb_spec 1000000000 (time.Nanosecond t)); [discriminate|].
  cbn [orb]. intros Hts. injection Hts as <-.
  cbn [ptypes.Seconds ptypes.Nanos]. lia.
Qed.

Lemma scanLoop_wellFormed (clock : nat -> time.Time) (rows : sql.Rows) :
  forall (k : nat) (acc races : list db.Race) (err : option error),
    Forall wellFormed acc ->
    db.scanLoop clock k rows acc = (races, err) ->
    Forall wellFormed races.
Proof.
  induction rows as [|r rows IH]; intros k acc races err Hacc Hloop.
  - now injection Hloop as <- _.
  - destruct r as [id m name num vis start|e]; cbn [db.scanLoop] in Hloop.
    + destruct (ptypes.TimestampProto start) as [ts|e] eqn:Hconv.
      * apply IH in Hloop; [exact Hloop|].
        apply Forall_app. split; [exact Hacc|].
        constructor; [|constructor]. split.
        -- exact (TimestampProto_valid _ _ Hconv).
        -- cbn [db.Status]. destruct (time.Before start (clock k)); auto.
      * injection Hloop as <- _. constructor.
    + destruct (is_ErrNoRows e); injection Hloop as <- _; constructor.
Qed.

(** X5.  Every race the mapper returns carries a wire timestamp within the
    bounds of the timestamp type, its seconds in the years 1 to 9999 and its
    nanoseconds within a second, and a status that is ["OPEN"] or
    ["CLOSED"]. *)
Theorem scanRaces_races_well_formed
        (clock : nat -> time.Time) (rows : sql.Rows)
        (races : list db.Race) (err : option error) (race : db.Race) :
  db.scanRaces clock rows = (races, err) ->
  In race races ->
  (ptypes.minValidSeconds <= ptypes.Seconds (db.AdvertisedStartTime race)
                          < ptypes.maxValidSeconds)
  /\ 0 <= ptypes.Nanos (db.AdvertisedStartTime race) < 1000000000
  /\ (db.Status race = "OPEN" \/ db.Status race = "CLOSED").
Proof.
  intros Hscan Hin.
  pose proof (scanLoop_wellFormed clock rows 0 [] races err
                (Forall_nil _) Hscan) as Hall.
  rewrite Forall_forall in Hall.
  destruct (Hall race Hin) as [[Hsec Hnanos] Hstatus]. now repeat split.
Qed.

Lemma scanRaces_races_well_formed_witness :
  (ptypes.minValidSeconds <= ptypes.Seconds (db.AdvertisedStartTime lateRaceOpen)
                          < ptypes.maxValidSeconds)
  /\ 0 <= ptypes.Nanos (db.AdvertisedStartTime lateRaceOpen) < 1000000000
  /\ (db.Status lateRaceOpen = "OPEN" \/ db.Status lateRaceOpen = "CLOSED").
Proof.
  apply (scanRaces_races_well_formed (at_ 150000000000) [earlyRace; lateRace]
           [earlyRaceClosed; lateRaceOpen] None lateRaceOpen eq_refl).
  right. left. reflexivity.
Defined.

Lemma TimestampProto_inYears (start : time.Time) :
  (ptypes.minValidSeconds * 1000000000 <=? start)
  && (start <? ptypes.maxValidSeconds * 1000000000) = true ->
  ptypes.TimestampProto start
  = inl {| ptypes.Seconds := time.Unix start;
           ptypes.Nanos := time.Nanosecond start |}.
Proof.
  rewrite andb_true_iff, Z.leb_le, Z.ltb_lt. intros [Hmin Hmax].
  unfold ptypes.TimestampProto. cbn [ptypes.Seconds ptypes.Nanos].
  assert (Hsec : ptypes.minValidSeconds <= time.Unix start
                 < ptypes.maxValidSeconds).
  { unfold time.Unix. split.
    - apply Z.div_le_lower_bound; lia.
    - apply Z.div_lt_upper_bound; lia. }
  assert (Hnanos : 0 <= time.Nanosecond start < 1000000000).
  { unfold time.Nanosecond. apply Z.mod_pos_bound. lia. }
  destruct (Z.ltb_spec (time.Unix start) ptypes.minValidSeconds); [lia|].
  destruct (Z.leb_spec ptypes.maxValidSeconds (time.Unix start)); [lia|].
  destruct (Z.ltb_spec (time.Nanosecond start) 0); [lia|].
  destruct (Z.leb_spec 1000000000 (time.Nanosecond start)); [lia|].
  reflexivity.
Qed.

Lemma scanLoop_inYears (clock : nat -> time.Time) (rows : sql.Rows) :
  forall (k : nat) (acc : list db.Race),
    forallb inYears rows = true ->
    exists new,
      db.scanLoop clock k rows acc = ((acc ++ new)%list, None)
      /\ mapped clock k rows new.
Proof.
  induction rows as [|r rows IH]; intros k acc Hrows.
  - exists []. rewrite app_nil_r. split; [reflexivity | apply mapped_nil].
  - cbn [forallb] in Hrows. apply andb_true_iff in Hrows.
    destruct Hrows as [Hr Hrows].
    destruct r as [id m name num vis start|e]; [|discriminate Hr].
    cbn [inYears] in Hr. cbn [db.scanLoop].
    rewrite (TimestampProto_inYears start Hr).
    match goal with
    | |- context [db.scanLoop clock (S k) rows ?acc'] =>
        destruct (IH (S k) acc' Hrows) as (new & -> & Hnew)
    end.
    eexists (_ :: new). rewrite <- app_assoc. split; [reflexivity|].
    apply mapped_cons; [reflexivity | exact Hnew].
Qed.

(** X6.  When every row of the answer scans and starts within the years 1 to
    9999, the mapper succeeds: it returns no error and one race for each row,
    in the order of the rows. *)
Theorem scanRaces_succeeds_within_years
        (clock : nat -> time.Time) (rows : sql.Rows) :
  forallb inYears rows = true ->
  exists races,
    db.scanRaces clock rows = (races, None)
    /\ mapped clock 0 rows races
    /\ List.length races = List.length rows.
Proof.
  intros Hrows.
  destruct (scanLoop_inYears clock rows 0 [] Hrows) as (new & Hloop & Hnew).
  exists new. split; [exact Hloop|].
  split; [exact Hnew | exact (mapped_length _ _ _ _ Hnew)].
Qed.

Lemma scanRaces_succeeds_within_years_witness :
  exists races,
    db.scanRaces (at_ 150000000000) [earlyRace; lateRace] = (races, None)
    /\ mapped (at_ 150000000000) 0 [earlyRace; lateRace] races
    /\ List.length races = List.length [earlyRace; lateRace].
Proof.
  exact (scanRaces_succeeds_within_years (at_ 150000000000)
           [earlyRace; lateRace] eq_refl).
Defined.

Lemma scanLoop_stops (clock : nat -> time.Time) (bad : sql.row)
      (rest : sql.Rows) (rows : sql.Rows) :
  fails bad = true ->
  forall (k : nat) (acc : list db.Race),
    db.scanLoop clock k (rows ++ bad :: rest)%list acc
    = db.scanLoop clock k (rows ++ [bad])%list acc
    /\ fst (db.scanLoop clock k (rows ++ [bad])%list acc) = [].
Proof.
  intros Hbad. induction rows as [|r rows IH]; intros k acc.
  - rewrite !app_nil_l. destruct bad as [id m name num vis start|e];
      cbn [db.scanLoop fails] in *.
    + destruct (ptypes.TimestampProto start);
        [discriminate Hbad | split; reflexivity].
    + split; [reflexivity|]. now destruct (is_ErrNoRows e).
  - rewrite <- !app_comm_cons.
    destruct r as [id m name num vis start|e]; cbn [db.scanLoop].
    + destruct (ptypes.TimestampProto start);
        [apply IH | split; reflexivity].
    + split; [reflexivity|]. now destruct (is_ErrNoRows e).
Qed.

(** X7.  The mapper stops at the first row whose scan fails or whose start
    time has no wire timestamp: the rows after it are not read, and the
    outcome is that of the rows up to it.  That outcome holds no race. *)
Theorem scanRaces_stops_at_first_failure
        (clock : nat -> time.Time) (rows rest : sql.Rows) (bad : sql.row) :
  fails bad = true ->
  db.scanRaces clock (rows ++ bad :: rest)%list
  = db.scanRaces clock (rows ++ [bad])%list
  /\ fst (db.scanRaces clock (rows ++ bad :: rest)%list) = [].
Proof.
  intros Hbad. unfold db.scanRaces.
  destruct (scanLoop_stops clock bad rest rows Hbad 0%nat []) as [-> Hnil].
  split; [reflexivity | exact Hnil].
Qed.

Lemma scanRaces_stops_at_first_failure_witness :
  db.scanRaces (at_ 0) ([earlyRace] ++ yearTenThousand :: [lateRace])%list
  = db.scanRaces (at_ 0) ([earlyRace] ++ [yearTenThousand])%list
  /\ fst (db.scanRaces (at_ 0)
            ([earlyRace] ++ yearTenThousand :: [lateRace])%list) = [].
Proof.
  exact (scanRaces_stops_at_first_failure (at_ 0) [earlyRace] [lateRace]
           yearTenThousand eq_refl).
Defined.

(** X8.  A race does not reopen as time goes on: when the same rows are
    mapped again with a later reading of the clock for a row, a race that was
    ["CLOSED"] is ["CLOSED"] again, and a race that is ["OPEN"] at the later
    reading was ["OPEN"] at the earlier one. *)
Theorem status_closed_stays_closed
        (clock clock' : nat -> time.Time) (rows : sql.Rows)
        (races races' : list db.Race) (err err' : option error)
        (k : nat) (race race' : db.Race) :
  db.scanRaces clock rows = (races, err) ->
  db.scanRaces clock' rows = (races', err') ->
  nth_error races k = Some race ->
  nth_error races' k = Some race' ->
  clock k <= clock' k ->
  (db.Status race = "CLOSED" -> db.Status race' = "CLOSED")
  /\ (db.Status race' = "OPEN" -> db.Status race = "OPEN").
Proof.
  intros Hscan Hscan' Hk Hk' Hlater.
  pose proof (scanRaces_mapped _ _ _ _ _ _ Hscan Hk) as Hm.
  pose proof (scanRaces_mapped _ _ _ _ _ _ Hscan' Hk') as Hm'.
  destruct (mapped_nth _ _ _ _ Hm k race Hk) as (row & Hrow & Hmaps).
  destruct (mapped_nth _ _ _ _ Hm' k race' Hk') as (row' & Hrow' & Hmaps').
  rewrite Hrow in Hrow'. injection Hrow' as <-.
  destruct row as [id m name num vis start|e]; [|destruct Hmaps].
  cbn [maps Nat.add] in Hmaps, Hmaps'. subst race race'.
  cbn [db.Status]. unfold statusAt.
  destruct (Z.ltb_spec start (clock k)), (Z.ltb_spec start (clock' k));
    split; intros Hstatus; try reflexivity; try discriminate Hstatus; lia.
Qed.

Lemma status_closed_stays_closed_witness :
  (db.Status lateRaceOpen = "CLOSED" -> db.Status lateRaceClosed = "CLOSED")
  /\ (db.Status lateRaceClosed = "OPEN" -> db.Status lateRaceOpen = "OPEN").
Proof.
  apply (status_closed_stays_closed
           (at_ 150000000000) (at_ 250000000000) [earlyRace; lateRace]
           [earlyRaceClosed; lateRaceOpen] [earlyRaceClosed; lateRaceClosed]
           None None 1 lateRaceOpen lateRaceClosed
           eq_refl eq_refl eq_refl eq_refl).
  unfold at_. lia.
Defined.

(** ** [Get], further *)

Lemma append_cancel_l (front s t : string) :
  front ++ s = front ++ t -> s = t.
Proof.
  induction front as [|c front IH]; cbn [String.append]; intros Heq.
  - exact Heq.
  - injection Heq as Heq. exact (IH Heq).
Qed.

(** X9.  [Get] executes different queries for different identifiers: when the
    texts built for two identifiers are the same, so are the identifiers. *)
Theorem Get_query_tells_identifiers_apart (template : string) (id id' : Z) :
  template ++ " WHERE id=" ++ strconv.FormatInt id
  = template ++ " WHERE id=" ++ strconv.FormatInt id' ->
  id = id'.
Proof.
  intros Heq. apply append_cancel_l in Heq.
  apply (append_cancel_l " WHERE id=") in Heq.
  pose proof (ParseInt_FormatInt id) as Hid.
  rewrite Heq, ParseInt_FormatInt in Hid. now injection Hid.
Qed.

Lemma Get_query_tells_identifiers_apart_witness : 42 = 42.
Proof.
  exact (Get_query_tells_identifiers_apart selectRaces 42 42 eq_refl).
Defined.

Lemma string_of_uint_literal (d : Decimal.uint) :
  allBytes isLiteralByte (NilEmpty.string_of_uint d) = true.
Proof. induction d; cbn; auto. Qed.

(** X10.  The identifier that [Get] writes into its query is never empty and
    is made of decimal digits and the minus sign only: no space, quote or
    other byte enters the query through it. *)
Theorem FormatInt_is_a_decimal_literal (i : Z) :
  allBytes isLiteralByte (strconv.FormatInt i) = true
  /\ strconv.FormatInt i <> "".
Proof.
  split.
  - unfold strconv.FormatInt, NilZero.string_of_int.
    destruct (Z.to_int i) as [d|d]; cbn [allBytes isLiteralByte andb];
      (destruct d; [reflexivity | apply (string_of_uint_literal (_ _)) ..]).
  - intros Hempty. pose proof (ParseInt_FormatInt i) as Hparse.
    rewrite Hempty in Hparse. discriminate Hparse.
Qed.

(** ** [Init], further *)

Section InitAgain.

Import db sql.
Context {DB : Type} {S : Store DB}.

Lemma Init_marks (r : racesRepo DB) :
  sync.done (repo_init (fst (Init r))) = true.
Proof.
  destruct r as [d [b]]. unfold Init, sync.Do. cbn.
  destruct b; cbn; [reflexivity|]. now destruct (seed d).
Qed.

End InitAgain.

(** X11.  [Init] is idempotent on every repository, new or not: the first
    call leaves the once-flag set, whether the seed succeeded or failed; a
    further call changes nothing and returns no error; so after any number of
    calls the repository is as after one, and [List] and [Get] answer as
    after one. *)
Theorem Init_idempotent
        {DB : Type} {S : sql.Store DB} (r : db.racesRepo DB) :
  sync.done (db.repo_init (fst (db.Init r))) = true
  /\ db.Init (fst (db.Init r)) = (fst (db.Init r), None)
  /\ forall n clock,
       fst (InitTimes (Datatypes.S n) r) = fst (db.Init r)
       /\ (forall filter,
             db.List (fst (InitTimes (Datatypes.S n) r)) clock filter
             = db.List (fst (db.Init r)) clock filter)
       /\ (forall req,
             db.Get (fst (InitTimes (Datatypes.S n) r)) clock req
             = db.Get (fst (db.Init r)) clock req).
Proof.
  pose proof (Init_marks r) as Hdone.
  split; [exact Hdone|]. split; [exact (Init_later _ Hdone)|].
  intros n clock.
  assert (Hsame : fst (InitTimes (Datatypes.S n) r) = fst (db.Init r)).
  { cbn [InitTimes]. destruct (db.Init r) as [r1 err] eqn:Hinit.
    cbn [fst] in Hdone |- *. now rewrite (InitTimes_later n r1 Hdone). }
  rewrite Hsame. repeat split.
Qed.

(** ** [ListEvents], further *)

(** X12.  [ListEvents] returns either a response and no error, or an error
    and no response: never both, never neither. *)
Theorem ListEvents_response_or_error
        {Filter Event R : Type} {repo : service.EventsRepo Filter Event R}
        (s : service.sportService R) (in_ : service.ListEventsRequest Filter) :
  (exists response, service.ListEvents s in_ = (Some response, None))
  \/ (exists err, service.ListEvents s in_ = (None, Some err)).
Proof.
  unfold service.ListEvents.
  destruct (service.repoList _ _) as [events [err|]]; [right|left]; eauto.
Qed.

(** ** The gateway's [main], further *)

(** X13.  [main] never ends in silence: whatever the flags and whatever the
    registrations and the server do, [run] comes back with an error, and
    [main] logs one line, which names that error, after the calls of [run]. *)
Theorem main_logs_the_failure
        {Mux : Type} {R : gateway.Runtime Mux} (fl : gateway.flags) :
  exists err,
    snd (gateway.run fl) = Some err
    /\ api.main fl
       = (fst (gateway.run fl),
          ["failed running api server: " ++ api.Error err ++ api.newline]).
Proof.
  unfold api.main, gateway.run.
  destruct (gateway.RegisterRacingHandlerFromEndpoint _ _) as [mux1 [e1|]];
    [eexists; split; reflexivity|].
  destruct (gateway.RegisterSportsHandlerFromEndpoint _ _) as [mux2 [e2|]];
    eexists; split; reflexivity.
Qed.

(** ** Reading a race back *)

(** X14.  When the store answers the query of [Get] with at least one row and
    every row of the answer scans and starts within the years 1 to 9999,
    [Get] returns the first row, mapped at the first reading of the clock,
    and no error. *)
Theorem Get_returns_the_first_row
        {DB : Type} {S : sql.Store DB} (r : db.racesRepo DB)
        (clock : nat -> time.Time) (req : db.GetRaceRequest)
        (row : sql.row) (rows : sql.Rows) :
  sql.Query (db.repo_db r) (getQuery req) [] = inl (row :: rows) ->
  forallb inYears (row :: rows) = true ->
  exists race,
    db.Get r clock req = (Some race, None) /\ maps (clock 0%nat) row race.
Proof.
  intros Hquery Hrows. rewrite Get_unfold, Hquery.
  destruct (scanLoop_inYears clock (row :: rows) 0 [] Hrows)
    as (new & Hloop & Hnew).
  unfold db.scanRaces. rewrite Hloop. cbn [app].
  inversion Hnew as [|k row' race rows' races Hmaps Hrest]; subst.
  exists race. split; [reflexivity | exact Hmaps].
Qed.

Lemma Get_returns_the_first_row_witness :
  exists race,
    db.Get (S := twoRaces) (db.NewRacesRepo tt) (at_ 150000000000)
           {| db.Id := 1 |}
    = (Some race, None)
    /\ maps (at_ 150000000000 0%nat) earlyRace race.
Proof.
  exact (Get_returns_the_first_row (S := twoRaces) (db.NewRacesRepo tt)
           (at_ 150000000000) {| db.Id := 1 |} earlyRace [lateRace]
           eq_refl eq_refl).
Defined.

(** X15.  The mapper copies a row into its race without loss: the [k]-th race
    it returns has the identifier, meeting, name, number and visibility of
    the [k]-th row, and its wire timestamp denotes the start time of that
    row, to the nanosecond. *)
Theorem scanRaces_copies_the_row
        (clock : nat -> time.Time) (rows : sql.Rows)
        (races : list db.Race) (err : option error)
        (k : nat) (race : db.Race) :
  db.scanRaces clock rows = (races, err) ->
  nth_error races k = Some race ->
  exists start,
    nth_error rows k
    = Some (sql.Scanned (db.RaceId race) (db.MeetingId race) (db.Name race)
                        (db.Number race) (db.Visible race) start)
    /\ ptypes.instant (db.AdvertisedStartTime race) = start.
Proof.
  intros Hscan Hk.
  pose proof (scanRaces_mapped _ _ _ _ _ _ Hscan Hk) as Hm.
  destruct (mapped_nth _ _ _ _ Hm k race Hk) as (row & Hrow & Hmaps).
  destruct row as [id m name num vis start|e]; [|destruct Hmaps].
  cbn [maps] in Hmaps. subst race. cbn.
  exists start. split; [exact Hrow | apply instant_of_time].
Qed.

Lemma scanRaces_copies_the_row_witness :
  exists start,
    nth_error [earlyRace; lateRace] 1
    = Some (sql.Scanned (db.RaceId lateRaceOpen) (db.MeetingId lateRaceOpen)
                        (db.Name lateRaceOpen) (db.Number lateRaceOpen)
                        (db.Visible lateRaceOpen) start)
    /\ ptypes.instant (db.AdvertisedStartTime lateRaceOpen) = start.
Proof.
  exact (scanRaces_copies_the_row (at_ 150000000000) [earlyRace; lateRace]
           [earlyRaceClosed; lateRaceOpen] None 1 lateRaceOpen
           eq_refl eq_refl).
Defined.
